(** * The expandable panel of [src/components/new-signup-form.js]

    A shallow embedding of the two live exports of the module: the
    [usePrevious] hook and the default-exported panel component, together
    with the hook cells they own.  The commented-out signup form is dead
    code and is not modelled. *)

From Stdlib Require Import Bool List String ZArith QArith Qminmax Lia Lqa.
Import ListNotations.

Local Open Scope string_scope.

(** ** JavaScript values handed to [usePrevious] *)

Module Js.

(** A hook argument: a primitive or a reference to an object.  Numbers are
    integers, the two signed zeros and NaN, which is all that the
    comparison of [Object.is] tells apart. *)
Inductive value : Type :=
| Undefined
| Null
| Bool (b : bool)
| Number (n : Z)
| NegZero
| NaN
| Str (s : string)
| Obj (addr : positive).

(** [Object.is]: SameValue.  NaN is itself, -0 is not +0, objects are
    compared by identity. *)
Definition Object_is (a b : value) : bool :=
  match a, b with
  | Undefined, Undefined => true
  | Null, Null => true
  | Bool x, Bool y => Bool.eqb x y
  | Number x, Number y => Z.eqb x y
  | NegZero, NegZero => true
  | NaN, NaN => true
  | Str x, Str y => String.eqb x y
  | Obj x, Obj y => Pos.eqb x y
  | _, _ => false
  end.

End Js.

(** ** [usePrevious] *)

Module UsePrevious.
Import Js.

(** The two hook cells of one [usePrevious] call site: the object made by
    [React.useRef()] and the dependency array remembered by
    [React.useEffect] ([None] until the first commit). *)
Record Hooks : Type := {
  ref_current : value;
  effect_deps : option (list value)
}.

(** [React.useRef()] without argument, and an effect that never ran. *)
Definition mountHooks : Hooks :=
  {| ref_current := Undefined; effect_deps := None |}.

Fixpoint sameDeps (prev next : list value) : bool :=
  match prev, next with
  | [], [] => true
  | p :: prev', n :: next' => Object_is p n && sameDeps prev' next'
  | _, _ => false
  end.

(** React runs an effect at mount and whenever one dependency differs,
    by [Object.is], from the one of the last commit. *)
Definition depsChanged (prev : option (list value)) (next : list value) : bool :=
  match prev with
  | None => true
  | Some p => negb (sameDeps p next)
  end.

(** One render followed by its commit.
<<
  const ref = React.useRef()
  React.useEffect(() => void (ref.current = value), [value])
  return ref.current
>>
    The result is read during the render; the effect runs after it. *)
Definition usePrevious (h : Hooks) (v : value) : value * Hooks :=
  let result := ref_current h in
  let committed :=
    if depsChanged (effect_deps h) [v]
    then {| ref_current := v; effect_deps := Some [v] |}
    else {| ref_current := ref_current h; effect_deps := effect_deps h |} in
  (result, committed).

(** The results of successive renders of one mounted call site. *)
Fixpoint renders (h : Hooks) (vs : list value) : list value :=
  match vs with
  | [] => []
  | v :: vs' => let (r, h') := usePrevious h v in r :: renders h' vs'
  end.

(** The hook cells after successive renders. *)
Fixpoint hooksAfter (h : Hooks) (vs : list value) : Hooks :=
  match vs with
  | [] => h
  | v :: vs' => hooksAfter (snd (usePrevious h v)) vs'
  end.

(** The cells of a call site that has committed a render with [x]. *)
Definition committed (x : value) : Hooks :=
  {| ref_current := x; effect_deps := Some [x] |}.



End UsePrevious.

(** ** The animation primitives the panel is written against *)

Module Spring.

(** A timing configuration object, as passed under [config:]. *)
Record SpringConfig : Type := {
  tension : Z;
  clamp : bool
}.

(** A style object [{ opacity: n }]. *)
Record Style : Type := {
  opacity : Q
}.

(** The two ref objects made by [React.useRef()] in the panel and handed
    to [useTransition] and [useChain]. *)
Inductive SpringRef : Type :=
| openSpringRef
| closedSpringRef.

Definition SpringRef_eqb (a b : SpringRef) : bool :=
  match a, b with
  | openSpringRef, openSpringRef => true
  | closedSpringRef, closedSpringRef => true
  | _, _ => false
  end.

Fixpoint refs_eqb (a b : list SpringRef) : bool :=
  match a, b with
  | [], [] => true
  | x :: a', y :: b' => SpringRef_eqb x y && refs_eqb a' b'
  | _, _ => false
  end.

(** The third argument of [useTransition]. *)
Record TransitionProps : Type := {
  config : SpringConfig;
  initial : Style;
  from : Style;
  enter : Style;
  leave : Style;
  unique : bool;
  ref : SpringRef
}.

(** The argument of [useSpring] in the panel: [{ to: { height }, config }]. *)
Record SpringProps : Type := {
  to_height : Q;
  spring_config : SpringConfig
}.

(** The phase an element of a transition is in. *)
Inductive Slot : Type :=
| Initial
| Enter
| Leave
| Update.

(** One element of the array [useTransition] returns: [item] (which is
    also its key, the key argument being [null]), the animated style
    [props], and what the library keeps with it: the phase, whether it is
    on its way out, the style it is heading to and the timing
    configuration of its spring. *)
Record Transition : Type := {
  item : string;
  slot : Slot;
  destroyed : bool;
  props : Style;
  to : Style;
  timing : SpringConfig
}.

Definition keyed (k : string) (t : Transition) : bool := item t =? k.

Definition live (t : Transition) : bool := negb (destroyed t).

Definition entering (p : TransitionProps) (first : bool) (k : string) (start : Style)
  : Transition :=
  {| item := k;
     slot := if first then Initial else Enter;
     destroyed := false;
     props := start;
     to := enter p;
     timing := config p |}.

Definition leaving (p : TransitionProps) (t : Transition) : Transition :=
  {| item := item t;
     slot := Leave;
     destroyed := true;
     props := props t;
     to := leave p;
     timing := config p |}.

Definition updating (p : TransitionProps) (t : Transition) : Transition :=
  {| item := item t;
     slot := Update;
     destroyed := false;
     props := props t;
     to := to t;
     timing := config p |}.

(** Modelled from the spec: react-spring's [useTransition], a dependency
    that is not under src/; the spec gives its contract as "request a
    named transition with a target value and timing configuration, and
    receive per-frame interpolated values".  On a render with the single
    item [k]: an element kept under [k] stays as it is; otherwise [k]
    enters, from [initial] on the first render and from [from] later, and
    with [unique] it takes over the animated value of an element of the
    same key that was fading out; every other element that was not yet
    leaving starts to leave, keeping its value and heading to [leave]. *)
Definition diffItems (p : TransitionProps) (first : bool) (k : string)
    (ts : list Transition) : list Transition :=
  let same := filter (keyed k) ts in
  let others := filter (fun t => negb (keyed k t)) ts in
  let left := map (fun t => if destroyed t then t else leaving p t) others in
  match find live same with
  | Some t => updating p t :: filter destroyed same ++ left
  | None =>
      let start := if first then initial p else from p in
      if unique p then
        match same with
        | d :: _ => entering p first k (props d) :: left
        | [] => entering p first k start :: left
        end
      else entering p first k start :: same ++ left
  end.

(** The value [v] brought back between [cur] and [tgt]. *)
Definition towards (cur tgt v : Q) : Q :=
  Qmax (Qmin cur tgt) (Qmin (Qmax cur tgt) v).

(** Modelled from the spec: a per-frame value of a spring of
    react-spring, a dependency that is not under src/; the spec has a
    "tension-based spring, clamped, no overshoot".  With [clamp] the
    value lies between where the animated number is and where it is
    heading (the spring does not pass its target); without, it can be
    anywhere. *)
Definition interpolate (c : SpringConfig) (cur tgt v : Q) : Q :=
  if clamp c then towards cur tgt v else v.

(** Modelled from the spec: one frame of the element keyed [k], the
    "per-frame interpolated values" of the contract with react-spring. *)
Definition advance (k : string) (v : Q) (ts : list Transition) : list Transition :=
  map (fun t =>
         if keyed k t
         then {| item := item t; slot := slot t; destroyed := destroyed t;
                 props :=
                   {| opacity :=
                        interpolate (timing t) (opacity (props t)) (opacity (to t)) v |};
                 to := to t;
                 timing := timing t |}
         else t) ts.

(** Modelled from the spec: the completion of a transition, the
    "completion signal usable for chaining" of the contract with
    react-spring: every element has reached the style it was heading to,
    and the elements that were leaving are unmounted. *)
Definition settle (ts : list Transition) : list Transition :=
  filter live
    (map (fun t => {| item := item t; slot := slot t; destroyed := destroyed t;
                      props := to t; to := to t; timing := timing t |}) ts).

(** Modelled from the spec: react-spring's [useChain], a dependency that
    is not under src/; the glossary says of a chained sequence that "the
    second does not begin until the first reports completion".  The model
    keeps the refs still to run, the head being the one that runs; a
    render that passes the refs in another order than the previous render
    starts the new chain, a render that repeats them leaves it alone. *)
Definition useChain (previous refs pending : list SpringRef) : list SpringRef :=
  if refs_eqb refs previous then pending else refs.

(** The [bounds] object of react-use-measure; the panel reads [height]. *)
Record Bounds : Type := {
  height : Q
}.

End Spring.

(** ** The panel component (the default export) *)

Module Panel.
Import Spring.

(** [const SPRING_CONFIG = { tension: 275, clamp: true }] *)
Definition SPRING_CONFIG : SpringConfig :=
  {| tension := 275; clamp := true |}.

(** [let state = open ? "open" : "closed"] *)
Definition state (open : bool) : string :=
  if open then "open" else "closed".

(** The options object of the two [useTransition] calls; they differ in
    the ref only. *)
Definition transitionProps (r : SpringRef) : TransitionProps :=
  {| config := SPRING_CONFIG;
     initial := {| opacity := 1 |};
     from := {| opacity := 0 |};
     enter := {| opacity := 1 |};
     leave := {| opacity := 0 |};
     unique := true;
     ref := r |}.

(** The argument of [useChain]:
    [open ? [closedSpringRef, openSpringRef] : [openSpringRef, closedSpringRef]] *)
Definition chainRefs (open : bool) : list SpringRef :=
  if open then [closedSpringRef; openSpringRef]
  else [openSpringRef; closedSpringRef].

(** The button: [onClick={() => set(!open)}] and
    [{open ? "Close" : "Open"}]. *)
Definition toggle (open : bool) : bool := negb open.

Definition buttonLabel (open : bool) : string :=
  if open then "Close" else "Open".

(** Everything the component keeps between renders: its own [useState]
    cell, and what the hooks of the two libraries keep for it. *)
Record State : Type := {
  open : bool;
  openSpringTransitions : list Transition;
  closedSpringTransitions : list Transition;
  chained : list SpringRef;
  pending : list SpringRef;
  openBounds : Bounds;
  closedBounds : Bounds;
  containerHeight : Q
}.

(** [let finalHeight = open ? openBounds.height : closedBounds.height] *)
Definition finalHeight (s : State) : Q :=
  if open s then height (openBounds s) else height (closedBounds s).

(** [useSpring({ to: { height: finalHeight }, config: SPRING_CONFIG })] *)
Definition containerSpring (s : State) : SpringProps :=
  {| to_height := finalHeight s; spring_config := SPRING_CONFIG |}.

(** The transition a ref drives. *)
Definition transitionsOf (r : SpringRef) (s : State) : list Transition :=
  match r with
  | openSpringRef => openSpringTransitions s
  | closedSpringRef => closedSpringTransitions s
  end.

(** The text a transition renders: [item === "closed" && ...] under
    [closedSpringTransitions.map], [item === "open" && ...] under
    [openSpringTransitions.map]. *)
Definition shown (r : SpringRef) : string :=
  match r with
  | openSpringRef => "open"
  | closedSpringRef => "closed"
  end.

(** The absolutely positioned [animated.div]s a transition contributes to
    the container, each with its [style={props}]. *)
Definition layers (r : SpringRef) (s : State) : list Transition :=
  filter (keyed (shown r)) (transitionsOf r s).

(** The children of the container, in document order. *)
Definition mounted (s : State) : list Transition :=
  layers closedSpringRef s ++ layers openSpringRef s.

(** The component body run again over the kept state. *)
Definition render (first : bool) (s : State) : State :=
  let refs := chainRefs (open s) in
  {| open := open s;
     openSpringTransitions :=
       diffItems (transitionProps openSpringRef) first (state (open s))
                 (openSpringTransitions s);
     closedSpringTransitions :=
       diffItems (transitionProps closedSpringRef) first (state (open s))
                 (closedSpringTransitions s);
     chained := refs;
     pending := useChain (chained s) refs (pending s);
     openBounds := openBounds s;
     closedBounds := closedBounds s;
     containerHeight := containerHeight s |}.

(** The first render: [React.useState(false)], no element in either
    transition, no chain yet, bounds not measured, and a spring that
    starts where it is told to go. *)
Definition mount : State :=
  render true
    {| open := false;
       openSpringTransitions := [];
       closedSpringTransitions := [];
       chained := [];
       pending := [];
       openBounds := {| height := 0 |};
       closedBounds := {| height := 0 |};
       containerHeight := 0 |}.

Definition set_open (b : bool) (s : State) : State :=
  {| open := b;
     openSpringTransitions := openSpringTransitions s;
     closedSpringTransitions := closedSpringTransitions s;
     chained := chained s;
     pending := pending s;
     openBounds := openBounds s;
     closedBounds := closedBounds s;
     containerHeight := containerHeight s |}.

Definition set_bounds (r : SpringRef) (b : Bounds) (s : State) : State :=
  {| open := open s;
     openSpringTransitions := openSpringTransitions s;
     closedSpringTransitions := closedSpringTransitions s;
     chained := chained s;
     pending := pending s;
     openBounds := match r with openSpringRef => b | closedSpringRef => openBounds s end;
     closedBounds := match r with closedSpringRef => b | openSpringRef => closedBounds s end;
     containerHeight := containerHeight s |}.

Definition set_transitions (r : SpringRef) (ts : list Transition) (rest : list SpringRef)
    (s : State) : State :=
  {| open := open s;
     openSpringTransitions :=
       match r with openSpringRef => ts | closedSpringRef => openSpringTransitions s end;
     closedSpringTransitions :=
       match r with closedSpringRef => ts | openSpringRef => closedSpringTransitions s end;
     chained := chained s;
     pending := rest;
     openBounds := openBounds s;
     closedBounds := closedBounds s;
     containerHeight := containerHeight s |}.

Definition set_height (h : Q) (s : State) : State :=
  {| open := open s;
     openSpringTransitions := openSpringTransitions s;
     closedSpringTransitions := closedSpringTransitions s;
     chained := chained s;
     pending := pending s;
     openBounds := openBounds s;
     closedBounds := closedBounds s;
     containerHeight := h |}.

(** What can happen to a mounted panel. *)
Inductive Event : Type :=
| Click
| Measure (r : SpringRef) (b : Bounds)
| Frame (k : string) (v : Q)
| Rest
| HeightFrame (v : Q)
| HeightRest.

(** Modelled from the spec: the scheduler of react-spring, a dependency
    that is not under src/, which decides when the frames and the
    completions of the two transitions and of the container spring
    happen.  The glossary says of a chained sequence that "the second
    does not begin until the first reports completion"; so [Frame k v]
    moves the element [k] of the transition at the head of the chain and
    of no other, [Rest] is that transition reporting completion, after
    which the next one runs, and a chain started by an earlier render is
    dropped when a later render starts another.  That the second
    transition waits is therefore built into this definition and is not
    a property of the component.  [HeightFrame] and [HeightRest] are a
    frame and the completion of the container spring.  The other two
    events are the component's own: [Click] is the button's handler
    setting the flag, after which the component renders again;
    [Measure r b] sets the bounds of the layer shown by [r], after which
    the component renders again. *)
Definition step (s : State) (e : Event) : State :=
  match e with
  | Click => render false (set_open (toggle (open s)) s)
  | Measure r b => render false (set_bounds r b s)
  | Frame k v =>
      match pending s with
      | r :: _ => set_transitions r (advance k v (transitionsOf r s)) (pending s) s
      | [] => s
      end
  | Rest =>
      match pending s with
      | r :: rest => set_transitions r (settle (transitionsOf r s)) rest s
      | [] => s
      end
  | HeightFrame v =>
      set_height (interpolate (spring_config (containerSpring s)) (containerHeight s)
                              (to_height (containerSpring s)) v) s
  | HeightRest => set_height (to_height (containerSpring s)) s
  end.

Definition run (s : State) (es : list Event) : State :=
  fold_left step es s.

(** The panel is idle when no chained transition is left to run. *)
Definition idle (s : State) : bool :=
  match pending s with [] => true | _ => false end.

Definition opaque (t : Transition) : Prop := opacity (props t) == 1.

Definition transparent (t : Transition) : Prop := opacity (props t) == 0.

(** The direction in which the layer of [r] is fading: the phase of the
    element that carries it, if it is mounted. *)
Definition fade (r : SpringRef) (s : State) : option (Slot * Style) :=
  match layers r s with
  | t :: _ => Some (slot t, to t)
  | [] => None
  end.

Definition fadeOut : option (Slot * Style) := Some (Leave, {| opacity := 0 |}).
Definition fadeIn : option (Slot * Style) := Some (Enter, {| opacity := 1 |}).

Definition isClick (e : Event) : bool :=
  match e with Click => true | _ => false end.

(** A run of animation frames of the chained transitions. *)
Definition frames (fs : list (string * Q)) : list Event :=
  map (fun kv => Frame (fst kv) (snd kv)) fs.

(** The ref whose layer does not match the flag (its text is on the way
    out) and the ref whose layer matches it. *)
Definition outgoingRef (open : bool) : SpringRef :=
  if open then closedSpringRef else openSpringRef.

Definition incomingRef (open : bool) : SpringRef :=
  if open then openSpringRef else closedSpringRef.


(** *** The shape of a transition between renders *)

(** The element kept for the item of the last render. *)
Definition current (k : string) (t : Transition) : Prop :=
  item t = k /\ destroyed t = false /\ to t = {| opacity := 1 |}
  /\ timing t = SPRING_CONFIG.

(** An element of the other item, on its way out. *)
Definition fading (k : string) (d : Transition) : Prop :=
  item d = state (negb (String.eqb k "open")) /\ destroyed d = true
  /\ to d = {| opacity := 0 |} /\ timing d = SPRING_CONFIG.

Inductive shape (k : string) : list Transition -> Prop :=
| shape_one t : current k t -> shape k [t]
| shape_two t d : current k t -> fading k d -> shape k [t; d].

Definition single (ts : list Transition) : Prop :=
  exists t, ts = [t].

Definition rested (ts : list Transition) : Prop :=
  exists t, ts = [t] /\ props t = to t.

(** Every mounted layer of [r] is fully transparent. *)
Definition hidden (r : SpringRef) (s : State) : Prop :=
  Forall transparent (layers r s).

(** Where the chain stands: both transitions still to run; or the
    outgoing one done, its leaving element unmounted; or both done. *)
Definition phase (s : State) : Prop :=
  pending s = chainRefs (open s)
  \/ (pending s = [incomingRef (open s)]
      /\ single (transitionsOf (outgoingRef (open s)) s))
  \/ (pending s = []
      /\ single (transitionsOf (outgoingRef (open s)) s)
      /\ rested (transitionsOf (incomingRef (open s)) s)).

Record Inv (s : State) : Prop := {
  inv_chained : chained s = chainRefs (open s);
  inv_open : shape (state (open s)) (openSpringTransitions s);
  inv_closed : shape (state (open s)) (closedSpringTransitions s);
  inv_phase : phase s;
  inv_hidden : hidden closedSpringRef s \/ hidden openSpringRef s
}.

Definition isMeasure (e : Event) : bool :=
  match e with Measure _ _ => true | _ => false end.

(** The events of the container spring, and those of the chained fades. *)
Definition isHeight (e : Event) : bool :=
  match e with HeightFrame _ | HeightRest => true | _ => false end.

Definition isFade (e : Event) : bool :=
  match e with Frame _ _ | Rest => true | _ => false end.

(** What the two fades are made of, and what the container height is
    made of. *)
Definition fades (s : State)
  : bool * list Transition * list Transition * list SpringRef * list SpringRef :=
  (open s, openSpringTransitions s, closedSpringTransitions s, chained s, pending s).

Definition geometry (s : State) : bool * Bounds * Bounds * Q :=
  (open s, openBounds s, closedBounds s, containerHeight s).

(** An opacity between fully transparent and fully opaque. *)
Definition inUnit (q : Q) : Prop := 0 <= q <= 1.

(** An element whose opacity and target are both within range and whose
    spring is clamped. *)
Definition bounded (t : Transition) : Prop :=
  inUnit (opacity (props t)) /\ inUnit (opacity (to t)) /\ clamp (timing t) = true.

(** Nothing was measured yet and the container has no height. *)
Definition unmeasured (s : State) : Prop :=
  openBounds s = {| height := 0 |} /\ closedBounds s = {| height := 0 |}
  /\ containerHeight s == 0.

End Panel.

(** * Properties *)

(** ** [usePrevious] *)

Section UsePreviousFacts.
Import Js UsePrevious.

Lemma Object_is_eq (a b : value) : Object_is a b = true <-> a = b.
Proof.
  destruct a, b; simpl; split; intro H;
    try reflexivity; try discriminate; try congruence.
  - apply Bool.eqb_prop in H. now subst.
  - injection H as ->. apply Bool.eqb_reflx.
  - apply Z.eqb_eq in H. now subst.
  - injection H as ->. apply Z.eqb_refl.
  - apply String.eqb_eq in H. now subst.
  - injection H as ->. apply String.eqb_refl.
  - apply Pos.eqb_eq in H. now subst.
  - injection H as ->. apply Pos.eqb_refl.
Qed.

Lemma usePrevious_mount (v : value) :
  usePrevious mountHooks v = (Undefined, committed v).
Proof. reflexivity. Qed.

Lemma usePrevious_committed (x v : value) :
  usePrevious (committed x) v = (x, committed v).
Proof.
  unfold usePrevious, committed, depsChanged; simpl.
  rewrite Bool.andb_true_r.
  destruct (Object_is x v) eqn:E; simpl; [|reflexivity].
  apply Object_is_eq in E. now subst.
Qed.

Lemma renders_committed (x : value) (vs : list value) :
  renders (committed x) vs = removelast (x :: vs).
Proof.
  revert x. induction vs as [|v vs IH]; intro x; [reflexivity|].
  cbn [renders]. rewrite usePrevious_committed, IH. reflexivity.
Qed.

Lemma last_cons (v x : value) (vs : list value) :
  last (v :: vs) x = last vs v.
Proof.
  revert v x. induction vs as [|w ws IH]; intros v x; [reflexivity|].
  change (last (v :: w :: ws) x) with (last (w :: ws) x).
  rewrite (IH w x). symmetry. apply IH.
Qed.

Lemma hooksAfter_committed (x : value) (vs : list value) :
  hooksAfter (committed x) vs = committed (last vs x).
Proof.
  revert x. induction vs as [|v vs IH]; intro x; [reflexivity|].
  cbn [hooksAfter]. rewrite usePrevious_committed. cbn [snd].
  now rewrite IH, last_cons.
Qed.

(** C10: on the first render [usePrevious] returns [undefined]; on every
    later render it returns the value it was given on the render just
    before; and after each commit the ref holds the value of that
    render. *)
Theorem usePrevious_returns_previous (v : Js.value) (vs : list Js.value) :
  renders mountHooks (v :: vs) = Undefined :: removelast (v :: vs)
  /\ (forall i, (i < List.length vs)%nat ->
        nth (S i) (renders mountHooks (v :: vs)) Undefined = nth i (v :: vs) Undefined)
  /\ ref_current (hooksAfter mountHooks (v :: vs)) = last vs v.
Proof.
  assert (R : renders mountHooks (v :: vs) = Undefined :: removelast (v :: vs)).
  { cbn [renders]. rewrite usePrevious_mount, renders_committed. reflexivity. }
  split; [exact R|split].
  - intros i Hi. rewrite R. cbn [nth]. clear R.
    revert v i Hi. induction vs as [|w ws IH]; intros v i Hi; [inversion Hi|].
    destruct i as [|i]; [reflexivity|].
    change (removelast (v :: w :: ws)) with (v :: removelast (w :: ws)).
    cbn [nth]. apply IH. simpl in Hi. lia.
  - cbn [hooksAfter]. rewrite usePrevious_mount. cbn [snd].
    rewrite hooksAfter_committed. reflexivity.
Qed.

Lemma usePrevious_returns_previous_witness :
  nth 2 (renders mountHooks [Number 1; Number 1; Str "a"; NaN]) Undefined = Number 1
  /\ nth 3 (renders mountHooks [Number 1; Number 1; Str "a"; NaN]) Undefined = Str "a".
Proof.
  split.
  - apply (proj1 (proj2 (usePrevious_returns_previous
                           (Number 1) [Number 1; Str "a"; NaN])) 1%nat).
    simpl; lia.
  - apply (proj1 (proj2 (usePrevious_returns_previous
                           (Number 1) [Number 1; Str "a"; NaN])) 2%nat).
    simpl; lia.
Defined.

(** X1: a call site that has never rendered behaves, from its first
    render on, like one whose last committed value was [undefined]: the
    caller cannot tell a first render from a render that follows an
    [undefined] value. *)
Theorem first_render_like_after_undefined (vs : list Js.value) :
  renders mountHooks vs = renders (committed Undefined) vs
  /\ (vs <> [] -> hooksAfter mountHooks vs = hooksAfter (committed Undefined) vs).
Proof.
  destruct vs as [|v vs]; [split; [reflexivity | intro N; now contradiction N]|].
  split.
  - cbn [renders]. now rewrite usePrevious_mount, usePrevious_committed.
  - intros _. cbn [hooksAfter].
    now rewrite usePrevious_mount, usePrevious_committed.
Qed.

Lemma first_render_like_after_undefined_witness :
  hooksAfter mountHooks [Str "a"; Null] = hooksAfter (committed Undefined) [Str "a"; Null].
Proof.
  apply (proj2 (first_render_like_after_undefined [Str "a"; Null])).
  discriminate.
Defined.




(** X3: the hook remembers the value of the render before, not the last
    different value: on a render that is given the same value as the
    render before it, it returns that very value. *)
Theorem repeated_value_is_returned (vs : list Js.value) (i : nat) :
  (S i < List.length vs)%nat ->
  nth i vs Undefined = nth (S i) vs Undefined ->
  nth (S i) (renders mountHooks vs) Undefined = nth (S i) vs Undefined.
Proof.
  intros Hi E. destruct vs as [|v vs]; [inversion Hi|].
  cbn [renders]. rewrite usePrevious_mount, renders_committed.
  rewrite <- E. clear E. cbn [nth].
  simpl in Hi. apply PeanoNat.lt_S_n in Hi.
  revert v i Hi. induction vs as [|w ws IH]; intros v i Hi; [inversion Hi|].
  change (removelast (v :: w :: ws)) with (v :: removelast (w :: ws)).
  destruct i as [|i]; [reflexivity|].
  cbn [nth]. apply IH. simpl in Hi. lia.
Qed.

Lemma repeated_value_is_returned_witness :
  nth 2 (renders mountHooks [Number 1; Number 2; Number 2]) Undefined = Number 2.
Proof.
  apply (repeated_value_is_returned [Number 1; Number 2; Number 2] 1);
    [simpl; lia | reflexivity].
Defined.

End UsePreviousFacts.

(** ** The panel *)

Section PanelFacts.
Import Spring Panel.

Lemma towards_between (cur tgt v : Q) :
  Qmin cur tgt <= towards cur tgt v <= Qmax cur tgt.
Proof.
  unfold towards.
  destruct (Q.min_spec cur tgt) as [[? E1]|[? E1]];
  destruct (Q.max_spec cur tgt) as [[? E2]|[? E2]];
  destruct (Q.min_spec (Qmax cur tgt) v) as [[? E3]|[? E3]];
  destruct (Q.max_spec (Qmin cur tgt) (Qmin (Qmax cur tgt) v)) as [[? E4]|[? E4]];
  rewrite ?E4, ?E3, ?E2, ?E1 in *; split; lra.
Qed.

Lemma towards_fixed (cur tgt v : Q) :
  cur == tgt -> towards cur tgt v == tgt.
Proof.
  intro E. pose proof (towards_between cur tgt v) as [L U].
  destruct (Q.min_spec cur tgt) as [[? E1]|[? E1]];
  destruct (Q.max_spec cur tgt) as [[? E2]|[? E2]];
  rewrite ?E2, ?E1 in *; lra.
Qed.

Ltac shape_cases H :=
  let t := fresh "t" in
  let d := fresh "d" in
  let Ht := fresh "Ht" in
  let Hd := fresh "Hd" in
  inversion H as [t Ht | t d Ht Hd]; subst;
  [ destruct Ht as (? & ? & ? & ?)
  | destruct Ht as (? & ? & ? & ?); destruct Hd as (? & ? & ? & ?); destruct d ];
  destruct t; simpl in *; subst.

Lemma shape_same (r : SpringRef) (b : bool) (ts : list Transition) :
  shape (state b) ts ->
  diffItems (transitionProps r) false (state b) ts
  = match ts with
    | t :: rest => updating (transitionProps r) t :: rest
    | [] => []
    end.
Proof.
  intro H. destruct b; shape_cases H; reflexivity.
Qed.

Lemma shape_flip (r : SpringRef) (b : bool) (ts : list Transition) :
  shape (state b) ts ->
  diffItems (transitionProps r) false (state (negb b)) ts
  = match ts with
    | t :: rest =>
        [entering (transitionProps r) false (state (negb b))
           match rest with d :: _ => props d | [] => {| opacity := 0 |} end;
         leaving (transitionProps r) t]
    | [] => []
    end.
Proof.
  intro H. destruct b; shape_cases H; reflexivity.
Qed.


(** At mount the closed text alone is shown, fully opaque. *)
Example mount_shows_closed_text :
  map (fun t => (item t, slot t, opacity (props t))) (mounted mount)
  = [("closed", Initial, 1)].
Proof. reflexivity. Qed.

(** A click while the closed text is half-way out: the closed text comes
    back from where it is, the open text leaves from where it waited. *)
Example click_during_fade_out :
  map (fun t => (item t, slot t, opacity (props t), opacity (to t)))
      (mounted (run mount [Click; Frame "closed" (1 # 2); Click]))
  = [("closed", Enter, 1 # 2, 1); ("open", Leave, 0, 0)].
Proof. reflexivity. Qed.

Lemma Inv_mount : Inv mount.
Proof.
  constructor; simpl.
  - reflexivity.
  - apply shape_one. repeat split.
  - apply shape_one. repeat split.
  - left. reflexivity.
  - right. constructor.
Qed.

Ltac phase_cases H :=
  let Hp := fresh "Hp" in
  let Hs := fresh "Hs" in
  let Hr := fresh "Hr" in
  let x := fresh "x" in
  destruct H as [Hp | [(Hp & Hs) | (Hp & Hs & Hr)]];
  [ | destruct Hs as [x Hs]
    | destruct Hs as [x Hs]; destruct Hr as [? [Hr ?]] ];
  simpl in *; try discriminate;
  repeat match goal with
         | E : [_] = [_] |- _ => injection E as E; try subst
         end; subst; simpl in *; subst.

Ltac inv_cases H :=
  let Hc := fresh "Hc" in
  let Ho := fresh "Ho" in
  let Hcl := fresh "Hcl" in
  let Hp := fresh "Hp" in
  let Hh := fresh "Hh" in
  let b := fresh "b" in
  destruct H as [Hc Ho Hcl Hp Hh];
  match goal with s : State |- _ => destruct s as [b ? ? ? ? ? ? ?] end;
  unfold hidden, layers in Hh; simpl in *; subst;
  destruct b; shape_cases Ho; shape_cases Hcl; phase_cases Hp.

Ltac hid_solve :=
  repeat match goal with
         | H : Forall transparent (_ :: _) |- _ => inversion H; subst; clear H
         end;
  repeat constructor; unfold transparent, interpolate in *; simpl in *;
  first [ assumption | reflexivity | apply towards_fixed; assumption ].

Ltac hid Hh :=
  first [ left; solve [hid_solve]
        | right; solve [hid_solve]
        | destruct Hh as [Hh | Hh];
          first [ left; solve [hid_solve] | right; solve [hid_solve] ] ].

Ltac shape_solve :=
  first [apply shape_one | apply shape_two]; repeat split; reflexivity.

Ltac phase_solve :=
  first [ left; reflexivity
        | right; left; split; [reflexivity | eexists; reflexivity]
        | right; right; split; [reflexivity | split];
          [ eexists; reflexivity | eexists; split; reflexivity ] ].

Ltac inv_solve Hh :=
  constructor; unfold hidden, layers; simpl;
  [ reflexivity | shape_solve | shape_solve | phase_solve | hid Hh ].

Lemma Inv_click (s : State) : Inv s -> Inv (step s Click).
Proof.
  intro H. inv_cases H; inv_solve Hh.
Qed.

Lemma Inv_measure (s : State) (r : SpringRef) (b : Bounds) :
  Inv s -> Inv (step s (Measure r b)).
Proof.
  intro H. inv_cases H; inv_solve Hh.
Qed.

Lemma Inv_rest (s : State) : Inv s -> Inv (step s Rest).
Proof.
  intro H. inv_cases H; inv_solve Hh.
Qed.

Lemma Inv_frame (s : State) (k : string) (v : Q) :
  Inv s -> Inv (step s (Frame k v)).
Proof.
  intro H. unfold step, advance. generalize (keyed k). intro f.
  inv_cases H;
    repeat match goal with
           | |- context [f ?t] => destruct (f t)
           end;
    inv_solve Hh.
Qed.

Lemma Inv_height (s : State) (h : Q) : Inv s -> Inv (set_height h s).
Proof.
  intros [Hc Ho Hcl Hp Hh]. constructor; assumption.
Qed.

Lemma Inv_step (s : State) (e : Event) : Inv s -> Inv (step s e).
Proof.
  destruct e.
  - apply Inv_click.
  - apply Inv_measure.
  - apply Inv_frame.
  - apply Inv_rest.
  - apply Inv_height.
  - apply Inv_height.
Qed.

Lemma Inv_run (es : list Event) (s : State) : Inv s -> Inv (run s es).
Proof.
  revert s. induction es as [|e es IH]; intros s H; [exact H|].
  apply IH, Inv_step, H.
Qed.


Lemma run_app (s : State) (es es' : list Event) :
  run s (es ++ es') = run (run s es) es'.
Proof. apply fold_left_app. Qed.

Lemma Inv_reachable (es : list Event) : Inv (run mount es).
Proof. apply Inv_run, Inv_mount. Qed.

Lemma open_step (s : State) (e : Event) :
  open (step s e) = if isClick e then negb (open s) else open s.
Proof.
  destruct e; simpl; try reflexivity; destruct (pending s); reflexivity.
Qed.

Lemma open_run (es : list Event) (s : State) :
  open (run s es) = Nat.iter (List.length (filter isClick es)) negb (open s).
Proof.
  revert s. induction es as [|e es IH]; intro s; [reflexivity|].
  change (run s (e :: es)) with (run (step s e) es).
  rewrite IH, open_step. cbn [filter].
  destruct (isClick e); [|reflexivity].
  cbn [List.length]. now rewrite Nat.iter_succ_r.
Qed.

Lemma open_run_no_click (es : list Event) (s : State) :
  existsb isClick es = false -> open (run s es) = open s.
Proof.
  intro H. rewrite open_run.
  replace (filter isClick es) with (@nil Event); [reflexivity|].
  induction es as [|e es IH]; [reflexivity|].
  simpl in *. apply Bool.orb_false_iff in H as [-> H]. auto.
Qed.

Lemma frames_wait (fs : list (string * Q)) (s : State) (r : SpringRef)
    (rest : list SpringRef) :
  pending s = r :: rest ->
  pending (run s (frames fs)) = r :: rest
  /\ forall r', r' <> r ->
       transitionsOf r' (run s (frames fs)) = transitionsOf r' s.
Proof.
  revert s. induction fs as [|[k v] fs IH]; intros s H; [now split|].
  change (run s (frames ((k, v) :: fs)))
    with (run (step s (Frame k v)) (frames fs)).
  assert (P : pending (step s (Frame k v)) = r :: rest)
    by (simpl; rewrite H; reflexivity).
  destruct (IH _ P) as [Q1 Q2]. split; [exact Q1|].
  intros r' N. rewrite (Q2 r' N). simpl. rewrite H.
  destruct r, r'; try reflexivity; now contradiction N.
Qed.

Lemma click_roles (s : State) :
  Inv s ->
  open (step s Click) = negb (open s)
  /\ pending (step s Click)
     = [outgoingRef (negb (open s)); incomingRef (negb (open s))]
  /\ fade (outgoingRef (negb (open s))) (step s Click) = fadeOut
  /\ fade (incomingRef (negb (open s))) (step s Click) = fadeIn.
Proof.
  intro H. inv_cases H; repeat split; reflexivity.
Qed.

(** X12: after every click the component hands [useChain] the ref of
    the text that goes out first and the ref of the text that comes in
    second: the closed transition, then the open one, when the click
    opens the panel, and the reverse when it closes it.  The layer of the
    first is then leaving, towards opacity 0, and the layer of the second
    entering, towards opacity 1. *)
Theorem click_orders_chain_outgoing_first (es : list Event) :
  let s := run mount es in
  let s' := step s Click in
  if open s
  then open s' = false
       /\ pending s' = [openSpringRef; closedSpringRef]
       /\ fade openSpringRef s' = fadeOut
       /\ fade closedSpringRef s' = fadeIn
  else open s' = true
       /\ pending s' = [closedSpringRef; openSpringRef]
       /\ fade closedSpringRef s' = fadeOut
       /\ fade openSpringRef s' = fadeIn.
Proof.
  intros s s'. subst s'.
  destruct (click_roles s (Inv_reachable es)) as (O & P & Fo & Fi).
  destruct (open s); cbn [negb outgoingRef incomingRef] in *;
    repeat split; assumption.
Qed.




Lemma idle_one_opaque (s : State) :
  Inv s -> idle s = true ->
  exists t, mounted s = [t] /\ item t = state (open s) /\ opaque t.
Proof.
  intros H I. unfold idle in I.
  inv_cases H; try discriminate I;
    (eexists; split; [reflexivity | split; reflexivity]).
Qed.

Lemma transparent_not_opaque (t : Transition) : transparent t -> ~ opaque t.
Proof.
  unfold transparent, opaque. intros H O. rewrite H in O. discriminate O.
Qed.

Lemma never_both_opaque (s : State) (a b : Transition) :
  Inv s ->
  In a (layers closedSpringRef s) -> In b (layers openSpringRef s) ->
  ~ (opaque a /\ opaque b).
Proof.
  intros H Ia Ib [Oa Ob]. destruct (inv_hidden s H) as [T | T].
  - apply (transparent_not_opaque a); [|exact Oa].
    unfold hidden in T. rewrite Forall_forall in T. now apply T.
  - apply (transparent_not_opaque b); [|exact Ob].
    unfold hidden in T. rewrite Forall_forall in T. now apply T.
Qed.

(** C3: after any sequence of events, once both chained transitions have
    reported completion exactly one layer is mounted, it is the one of the
    current state and it is fully opaque; at every moment, a mounted
    closed layer and a mounted open layer are never both fully opaque;
    and both layers can be mounted at once while a transition is in
    flight. *)
Theorem one_layer_at_rest_never_two_opaque (es : list Event) :
  let s := run mount es in
  (idle s = true ->
   exists t, mounted s = [t] /\ item t = state (open s) /\ opaque t)
  /\ (forall a b,
        In a (layers closedSpringRef s) -> In b (layers openSpringRef s) ->
        ~ (opaque a /\ opaque b))
  /\ (exists es', idle (run mount es') = false
                  /\ List.length (layers closedSpringRef (run mount es')) = 1%nat
                  /\ List.length (layers openSpringRef (run mount es')) = 1%nat).
Proof.
  intro s. subst s. split; [|split].
  - apply idle_one_opaque, Inv_reachable.
  - intros a b. apply never_both_opaque, Inv_reachable.
  - exists [Click]. repeat split; reflexivity.
Qed.

Lemma one_layer_at_rest_never_two_opaque_witness :
  exists t,
    mounted (run mount [Click; Frame "closed" (1 # 2); Rest; Rest]) = [t]
    /\ item t = "open" /\ opaque t.
Proof.
  apply (proj1 (one_layer_at_rest_never_two_opaque
                  [Click; Frame "closed" (1 # 2); Rest; Rest])).
  reflexivity.
Defined.

(** C4: the container spring always heads to the measured height of the
    selected layer (the open layer's bounds when the state is OPEN, the
    closed layer's when CLOSED), a new measurement of the selected layer
    becomes the target, and when the spring comes to rest the container
    has that height. *)
Theorem container_targets_selected_height (s : State) (b : Bounds) :
  to_height (containerSpring s)
  = (if open s then height (openBounds s) else height (closedBounds s))
  /\ to_height (containerSpring (step s (Measure (incomingRef (open s)) b)))
     = height b
  /\ containerHeight (step s HeightRest)
     = (if open s then height (openBounds s) else height (closedBounds s))
  /\ containerHeight (step s HeightRest)
     = to_height (containerSpring (step s HeightRest)).
Proof.
  repeat split; try reflexivity.
  unfold containerSpring, finalHeight; simpl. destruct (open s); reflexivity.
Qed.

Lemma frames_no_click (fs : list (string * Q)) :
  filter isClick (frames fs) = [].
Proof. induction fs as [|kv fs IH]; [reflexivity | exact IH]. Qed.

(** C5: the toggle takes nothing but the current state and always
    succeeds; it yields the opposite state, twice it yields the state it
    started from, and so does a second click that comes while the frames
    of the first are still running. *)
Theorem toggle_flips_and_is_an_involution (s : State) (fs : list (string * Q)) :
  toggle (open s) <> open s
  /\ toggle (toggle (open s)) = open s
  /\ open (step s Click) = toggle (open s)
  /\ open (run s (Click :: frames fs ++ [Click])) = open s.
Proof.
  repeat split.
  - destruct (open s); discriminate.
  - apply Bool.negb_involutive.
  - rewrite open_run. cbn [filter isClick]. rewrite filter_app, frames_no_click.
    simpl. apply Bool.negb_involutive.
Qed.

(** C6: the panel mounts CLOSED; one click makes it OPEN; and as long as
    no other click comes, when the container spring then comes to rest
    the container has the measured height of the open layer. *)
Theorem first_click_opens_to_open_height (es : list Event) :
  open mount = false
  /\ open (step mount Click) = true
  /\ (existsb isClick es = false ->
      open (run (step mount Click) (es ++ [HeightRest])) = true
      /\ containerHeight (run (step mount Click) (es ++ [HeightRest]))
         = height (openBounds (run (step mount Click) (es ++ [HeightRest])))).
Proof.
  split; [reflexivity|split; [reflexivity|]]. intro N.
  rewrite run_app.
  pose proof (open_run_no_click es (step mount Click) N) as O.
  change (open (step mount Click)) with true in O.
  set (s := run (step mount Click) es) in *.
  change (run s [HeightRest]) with (step s HeightRest).
  split; [exact O|]. simpl. unfold finalHeight. now rewrite O.
Qed.

Lemma first_click_opens_to_open_height_witness :
  containerHeight
    (run (step mount Click)
       ([Rest; Measure openSpringRef {| height := 120 |}; Rest] ++ [HeightRest]))
  = 120.
Proof.
  apply (proj2 (proj2 (first_click_opens_to_open_height
                         [Rest; Measure openSpringRef {| height := 120 |}; Rest]))).
  reflexivity.
Defined.

(** C7: on every render the button reads "Close" when the state is OPEN
    and "Open" when it is CLOSED, so a click changes the label to the
    other one. *)
Theorem button_label_reflects_state (s : State) :
  buttonLabel (open s) = (if open s then "Close" else "Open")
  /\ buttonLabel (open (step s Click)) = (if open s then "Open" else "Close").
Proof.
  split; [reflexivity|]. simpl. destruct (open s); reflexivity.
Qed.

Lemma timing_shared (s : State) (r : SpringRef) :
  Inv s -> Forall (fun t => timing t = SPRING_CONFIG) (transitionsOf r s).
Proof.
  intro H. pose proof (inv_open s H) as Ho. pose proof (inv_closed s H) as Hc.
  destruct r; simpl;
    [ inversion Ho as [t Ht | t d Ht Hd] | inversion Hc as [t Ht | t d Ht Hd] ];
    repeat constructor;
    solve [ apply Ht | apply Hd ].
Qed.

(** C8: the two fade transitions and the container spring are given the
    one configuration [SPRING_CONFIG], every animated element of both
    transitions runs with it, and it is a spring set by its tension with
    clamping on: a frame never takes a value past its target. *)
Theorem one_clamped_spring_config (es : list Event) (r : SpringRef) (cur tgt v : Q) :
  config (transitionProps openSpringRef) = SPRING_CONFIG
  /\ config (transitionProps closedSpringRef) = SPRING_CONFIG
  /\ spring_config (containerSpring (run mount es)) = SPRING_CONFIG
  /\ Forall (fun t => timing t = SPRING_CONFIG) (transitionsOf r (run mount es))
  /\ tension SPRING_CONFIG = 275%Z
  /\ clamp SPRING_CONFIG = true
  /\ Qmin cur tgt <= interpolate SPRING_CONFIG cur tgt v <= Qmax cur tgt.
Proof.
  repeat split; try reflexivity.
  - apply timing_shared, Inv_reachable.
  - apply towards_between.
  - apply towards_between.
Qed.

(** C9: the open/closed flag changes on a click and on nothing else: one
    event flips it when it is a click and leaves it alone otherwise, and
    after any sequence of events it has been flipped once per click.  All
    state the events act on is the component's own. *)
Theorem only_click_changes_state (s : State) (e : Event) (es : list Event) :
  open (step s e) = (if isClick e then negb (open s) else open s)
  /\ open (run s es) = Nat.iter (List.length (filter isClick es)) negb (open s).
Proof.
  split; [apply open_step | apply open_run].
Qed.

(** *** Opacities stay within range *)

Lemma towards_inUnit (cur tgt v : Q) :
  inUnit cur -> inUnit tgt -> inUnit (towards cur tgt v).
Proof.
  unfold inUnit. intros [C0 C1] [T0 T1].
  pose proof (towards_between cur tgt v) as [L U].
  destruct (Q.min_spec cur tgt) as [[? E1]|[? E1]];
  destruct (Q.max_spec cur tgt) as [[? E2]|[? E2]];
  rewrite ?E2, ?E1 in *; split; lra.
Qed.

Lemma bounded_entering (r : SpringRef) (first : bool) (k : string) (start : Style) :
  inUnit (opacity start) -> bounded (entering (transitionProps r) first k start).
Proof.
  intro H. repeat split; try exact (proj1 H); try exact (proj2 H);
    simpl; unfold Qle; simpl; lia.
Qed.

Lemma bounded_leaving (r : SpringRef) (t : Transition) :
  bounded t -> bounded (leaving (transitionProps r) t).
Proof.
  intros (P & _ & _). repeat split; try apply P; simpl; unfold Qle; simpl; lia.
Qed.

Lemma bounded_updating (r : SpringRef) (t : Transition) :
  bounded t -> bounded (updating (transitionProps r) t).
Proof.
  intros (P & T & _). repeat split; solve [apply P | apply T].
Qed.

Lemma diffItems_bounded (r : SpringRef) (first : bool) (k : string)
    (ts : list Transition) :
  Forall bounded ts -> Forall bounded (diffItems (transitionProps r) first k ts).
Proof.
  intro H. rewrite Forall_forall in H.
  assert (Left : Forall bounded
            (map (fun t => if destroyed t then t else leaving (transitionProps r) t)
                 (filter (fun t => negb (keyed k t)) ts))).
  { apply Forall_forall. intros x Hx. apply in_map_iff in Hx as (t & <- & Ht).
    apply filter_In in Ht as [Ht _].
    destruct (destroyed t); [now apply H | now apply bounded_leaving, H]. }
  unfold diffItems.
  destruct (find live (filter (keyed k) ts)) as [t|] eqn:F.
  - apply find_some in F as [F _]. apply filter_In in F as [F _].
    constructor; [now apply bounded_updating, H|].
    apply Forall_app. split; [|exact Left].
    apply Forall_forall. intros x Hx.
    apply filter_In in Hx as [Hx _]. apply filter_In in Hx as [Hx _]. now apply H.
  - cbn [unique transitionProps].
    destruct (filter (keyed k) ts) as [|d same] eqn:S.
    + constructor; [|exact Left]. apply bounded_entering.
      destruct first; simpl; unfold inUnit, Qle; simpl; lia.
    + constructor; [|exact Left]. apply bounded_entering.
      assert (Hd : In d ts).
      { assert (I : In d (filter (keyed k) ts)) by (rewrite S; now left).
        now apply filter_In in I as [I _]. }
      exact (proj1 (H d Hd)).
Qed.

Lemma advance_bounded (k : string) (v : Q) (ts : list Transition) :
  Forall bounded ts -> Forall bounded (advance k v ts).
Proof.
  intro H. unfold advance. apply Forall_forall. intros x Hx.
  apply in_map_iff in Hx as (t & <- & Ht).
  rewrite Forall_forall in H. destruct (H t Ht) as (P & T & C).
  destruct (keyed k t); [|exact (conj P (conj T C))].
  split; [|split; [exact T | exact C]].
  simpl. unfold interpolate. rewrite C. now apply towards_inUnit.
Qed.

Lemma settle_bounded (ts : list Transition) :
  Forall bounded ts -> Forall bounded (settle ts).
Proof.
  intro H. unfold settle. apply Forall_forall. intros x Hx.
  apply filter_In in Hx as [Hx _]. apply in_map_iff in Hx as (t & <- & Ht).
  rewrite Forall_forall in H. destruct (H t Ht) as (P & T & C).
  repeat split; solve [apply T | exact C].
Qed.

Lemma bounded_step (s : State) (e : Event) :
  (forall r, Forall bounded (transitionsOf r s)) ->
  forall r, Forall bounded (transitionsOf r (step s e)).
Proof.
  intros H r. pose proof (H openSpringRef) as Ho. pose proof (H closedSpringRef) as Hc.
  destruct e; simpl.
  - destruct r; simpl; now apply diffItems_bounded.
  - destruct r; simpl; now apply diffItems_bounded.
  - destruct (pending s) as [|h rest]; [apply H|].
    destruct h, r; simpl; try assumption; now apply advance_bounded.
  - destruct (pending s) as [|h rest]; [apply H|].
    destruct h, r; simpl; try assumption; now apply settle_bounded.
  - destruct r; assumption.
  - destruct r; assumption.
Qed.

Lemma bounded_run (es : list Event) (s : State) :
  (forall r, Forall bounded (transitionsOf r s)) ->
  forall r, Forall bounded (transitionsOf r (run s es)).
Proof.
  revert s. induction es as [|e es IH]; intros s H; [exact H|].
  apply IH. now apply bounded_step.
Qed.

(** X4: whatever happens to a mounted panel, the opacity of every
    element of both transitions, shown or not, stays between 0 and 1: no
    frame takes a layer past fully opaque or below fully transparent. *)
Theorem opacity_stays_within_range (es : list Event) (r : SpringRef) :
  Forall (fun t => 0 <= opacity (props t) <= 1) (transitionsOf r (run mount es)).
Proof.
  assert (B : Forall bounded (transitionsOf r (run mount es))).
  { apply bounded_run. intro r'. destruct r'; simpl;
      (constructor; [|constructor]); repeat split; simpl; unfold Qle; simpl; lia. }
  eapply Forall_impl; [|exact B]. intros t (P & _ & _). exact P.
Qed.

(** *** Which layers are mounted *)

Lemma layer_structure (s : State) :
  Inv s ->
  (exists t, layers (incomingRef (open s)) s = [t]
             /\ destroyed t = false /\ to t = {| opacity := 1 |})
  /\ (layers (outgoingRef (open s)) s = []
      \/ exists d, layers (outgoingRef (open s)) s = [d]
                   /\ destroyed d = true /\ to d = {| opacity := 0 |}).
Proof.
  intro H. inv_cases H; unfold layers; simpl;
    (split;
     [ eexists; repeat split; reflexivity
     | first [ left; reflexivity
             | right; eexists; repeat split; reflexivity ] ]).
Qed.

(** X5: in every reachable state the text of the current state is
    mounted exactly once, is not on its way out and is heading to full
    opacity; the other text is either unmounted or mounted exactly once,
    on its way out and heading to opacity 0.  No text is ever mounted
    twice. *)
Theorem selected_text_mounted_other_on_its_way_out (es : list Event) :
  let s := run mount es in
  (exists t, layers (incomingRef (open s)) s = [t]
             /\ destroyed t = false /\ to t = {| opacity := 1 |})
  /\ (layers (outgoingRef (open s)) s = []
      \/ exists d, layers (outgoingRef (open s)) s = [d]
                   /\ destroyed d = true /\ to d = {| opacity := 0 |}).
Proof.
  intro s. apply layer_structure, Inv_reachable.
Qed.

Lemma two_rests_idle (s : State) : Inv s -> idle (run s [Rest; Rest]) = true.
Proof.
  intro H. inv_cases H; reflexivity.
Qed.

Lemma iter_negb_odd (n : nat) : Nat.iter n negb false = Nat.odd n.
Proof.
  induction n as [|n IH]; [reflexivity|].
  rewrite Nat.iter_succ, IH, Nat.odd_succ. apply Nat.negb_odd.
Qed.

(** X6: however clicks, frames, measurements and completions have
    interleaved, two completion reports are enough to bring the panel to
    rest, and what it then shows is decided by the clicks alone: exactly
    one layer, fully opaque, the open text after an odd number of clicks
    and the closed text after an even number. *)
Theorem two_completions_settle_on_last_click (es : list Event) :
  let s := run mount (es ++ [Rest; Rest]) in
  idle s = true
  /\ exists t, mounted s = [t]
               /\ item t = state (Nat.odd (List.length (filter isClick es)))
               /\ opaque t.
Proof.
  intro s. subst s.
  assert (I : idle (run mount (es ++ [Rest; Rest])) = true)
    by (rewrite run_app; apply two_rests_idle, Inv_reachable).
  split; [exact I|].
  destruct (idle_one_opaque _ (Inv_reachable (es ++ [Rest; Rest])) I)
    as (t & M & K & O).
  exists t. repeat split; try assumption.
  rewrite K, open_run, filter_app. cbn [filter isClick]. rewrite app_nil_r.
  change (open mount) with false. now rewrite iter_negb_odd.
Qed.

Lemma click_mounts_both (s : State) :
  Inv s ->
  List.length (layers closedSpringRef (step s Click)) = 1%nat
  /\ List.length (layers openSpringRef (step s Click)) = 1%nat.
Proof.
  intro H. inv_cases H; split; reflexivity.
Qed.

Lemma advance_items (k : string) (v : Q) (ts : list Transition) :
  map item (advance k v ts) = map item ts.
Proof.
  unfold advance. rewrite map_map. apply map_ext.
  intro t. destruct (keyed k t); reflexivity.
Qed.

Lemma frames_items (fs : list (string * Q)) (s : State) (r : SpringRef) :
  map item (transitionsOf r (run s (frames fs))) = map item (transitionsOf r s).
Proof.
  revert s. induction fs as [|[k v] fs IH]; intro s; [reflexivity|].
  change (run s (frames ((k, v) :: fs)))
    with (run (step s (Frame k v)) (frames fs)).
  rewrite IH. simpl. destruct (pending s) as [|h rest]; [reflexivity|].
  destruct h, r; simpl; try reflexivity; apply advance_items.
Qed.

Lemma keyed_length_items (k : string) (ts ts' : list Transition) :
  map item ts = map item ts' ->
  List.length (filter (keyed k) ts) = List.length (filter (keyed k) ts').
Proof.
  revert ts'. induction ts as [|t ts IH]; intros [|t' ts'] E;
    try discriminate E; [reflexivity|].
  injection E as E1 E2. cbn [filter].
  assert (K : keyed k t = keyed k t') by (unfold keyed; now rewrite E1).
  rewrite K. destruct (keyed k t'); cbn [List.length]; now rewrite (IH ts' E2).
Qed.

(** X7: right after every click both texts are mounted, one over the
    other, and frames alone never change that: as long as the first
    chained transition has not reported completion the panel is not at
    rest and neither layer is unmounted. *)
Theorem both_layers_mounted_until_first_completion
    (es : list Event) (fs : list (string * Q)) :
  let s' := run (step (run mount es) Click) (frames fs) in
  idle s' = false
  /\ List.length (layers closedSpringRef s') = 1%nat
  /\ List.length (layers openSpringRef s') = 1%nat.
Proof.
  intro s'. subst s'. set (s := run mount es).
  destruct (click_roles s (Inv_reachable es)) as (_ & P & _).
  destruct (click_mounts_both s (Inv_reachable es)) as [Lc Lo].
  destruct (frames_wait fs (step s Click) _ _ P) as [Q1 _].
  split; [unfold idle; now rewrite Q1|].
  unfold layers in *. split.
  - rewrite <- Lc. apply keyed_length_items, frames_items.
  - rewrite <- Lo. apply keyed_length_items, frames_items.
Qed.

(** X8: a click never makes a mounted layer jump: a layer that was
    mounted keeps the opacity it had, and a layer that the click mounts
    starts fully transparent. *)
Theorem click_keeps_opacities (es : list Event) (r : SpringRef) :
  let s := run mount es in
  map props (layers r (step s Click))
  = match layers r s with
    | [] => [{| opacity := 0 |}]
    | l => map props l
    end.
Proof.
  intro s. subst s. pose proof (Inv_reachable es) as H.
  revert H. generalize (run mount es). intros s H.
  inv_cases H; destruct r; reflexivity.
Qed.

(** *** The container height *)

(** X9: a measurement of the layer that is not selected does not move
    the target of the container spring; it is kept, and becomes the
    target with the next click. *)
Theorem unselected_measurement_waits_for_click (s : State) (b : Bounds) :
  to_height (containerSpring (step s (Measure (outgoingRef (open s)) b)))
  = to_height (containerSpring s)
  /\ to_height
       (containerSpring (step (step s (Measure (outgoingRef (open s)) b)) Click))
     = height b.
Proof.
  destruct s as [o ot ct ch pe ob cb h]. destruct o; split; reflexivity.
Qed.

Lemma unmeasured_step (s : State) (e : Event) :
  unmeasured s -> isMeasure e = false -> unmeasured (step s e).
Proof.
  intros (Bo & Bc & Hh) N. destruct e; try discriminate N; unfold unmeasured.
  - simpl. auto.
  - simpl. destruct (pending s) as [|r rest]; [auto|]. destruct r; simpl; auto.
  - simpl. destruct (pending s) as [|r rest]; [auto|]. destruct r; simpl; auto.
  - simpl. repeat split; try assumption.
    unfold finalHeight, interpolate. rewrite Bo, Bc. simpl.
    destruct (open s); apply towards_fixed; exact Hh.
  - simpl. repeat split; try assumption.
    unfold finalHeight. rewrite Bo, Bc. destruct (open s); reflexivity.
Qed.

Lemma unmeasured_run (es : list Event) (s : State) :
  unmeasured s -> existsb isMeasure es = false -> unmeasured (run s es).
Proof.
  revert s. induction es as [|e es IH]; intros s U N; [exact U|].
  simpl in N. apply Bool.orb_false_iff in N as [Ne Nes].
  apply IH; [now apply unmeasured_step | exact Nes].
Qed.

(** X10: until a measurement arrives the container has no height: both
    bounds are the zeros they start with, so whatever the clicks, frames
    and completions, the spring heads to 0 and the container stays at
    0. *)
Theorem no_measurement_no_height (es : list Event) :
  existsb isMeasure es = false ->
  to_height (containerSpring (run mount es)) = 0
  /\ containerHeight (run mount es) == 0.
Proof.
  intro N.
  destruct (unmeasured_run es mount) as (Bo & Bc & Hh);
    [repeat split; reflexivity | exact N |].
  split; [|exact Hh].
  simpl. unfold finalHeight. rewrite Bo, Bc. destruct (open (run mount es)); reflexivity.
Qed.

Lemma no_measurement_no_height_witness :
  containerHeight (run mount [Click; Rest; HeightFrame 5; Rest; HeightRest]) == 0.
Proof.
  apply (no_measurement_no_height [Click; Rest; HeightFrame 5; Rest; HeightRest]).
  reflexivity.
Defined.

(** *** The fades and the height do not depend on each other *)

Lemma fades_step (s s' : State) (e : Event) :
  fades s = fades s' ->
  fades (step s e) = (if isHeight e then fades s' else fades (step s' e)).
Proof.
  destruct s as [o ot ct ch pe ob cb h], s' as [o' ot' ct' ch' pe' ob' cb' h'].
  unfold fades; simpl. intro E. injection E as -> -> -> -> ->.
  destruct e; simpl; try reflexivity.
  - destruct pe' as [|r rest]; [reflexivity|]. destruct r; reflexivity.
  - destruct pe' as [|r rest]; [reflexivity|]. destruct r; reflexivity.
Qed.

Lemma geometry_step (s s' : State) (e : Event) :
  geometry s = geometry s' ->
  geometry (step s e) = (if isFade e then geometry s' else geometry (step s' e)).
Proof.
  destruct s as [o ot ct ch pe ob cb h], s' as [o' ot' ct' ch' pe' ob' cb' h'].
  unfold geometry; simpl. intro E. injection E as -> -> -> ->.
  destruct e; simpl; try reflexivity.
  - destruct pe as [|r rest]; [reflexivity|]. destruct r; reflexivity.
  - destruct pe as [|r rest]; [reflexivity|]. destruct r; reflexivity.
Qed.

Lemma fades_run (es : list Event) (s s' : State) :
  fades s = fades s' ->
  fades (run s es) = fades (run s' (filter (fun e => negb (isHeight e)) es)).
Proof.
  revert s s'. induction es as [|e es IH]; intros s s' E; [exact E|].
  change (run s (e :: es)) with (run (step s e) es).
  pose proof (fades_step s s' e E) as F. cbn [filter].
  destruct (isHeight e); cbn [negb]; apply IH; exact F.
Qed.

Lemma geometry_run (es : list Event) (s s' : State) :
  geometry s = geometry s' ->
  geometry (run s es) = geometry (run s' (filter (fun e => negb (isFade e)) es)).
Proof.
  revert s s'. induction es as [|e es IH]; intros s s' E; [exact E|].
  change (run s (e :: es)) with (run (step s e) es).
  pose proof (geometry_step s s' e E) as G. cbn [filter].
  destruct (isFade e); cbn [negb]; apply IH; exact G.
Qed.

(** X11: the fades and the container height are driven independently.
    The state flag, the two transitions and the chain come out the same
    when the frames and completions of the container spring are left out
    of a run; and the flag, the measured bounds and the container height
    come out the same when the frames and completions of the fades are
    left out. *)
Theorem fades_and_height_are_independent (s : State) (es : list Event) :
  fades (run s es) = fades (run s (filter (fun e => negb (isHeight e)) es))
  /\ geometry (run s es) = geometry (run s (filter (fun e => negb (isFade e)) es)).
Proof.
  split; [now apply fades_run | now apply geometry_run].
Qed.

End PanelFacts.
